(** * Data-integrity reconciliation of the exchange front end

    A shallow embedding of
    - [DerivativeSubaccountPositionIntegrityStrategy] (validate, verifyData,
      fetchData),
    - the stream registry the stores cancel and re-register their
      subscriptions with,
    - the subaccount balance mappers ([fetchSubaccount] and
      [grpcSubaccountBalanceToUiSubaccountBalance]),
    - the [toggleFavoriteMarket] and [toggleHideBalances] actions of the
      app store,
    - [fetchMarkets], [cancelMarketStreams] and
      [calculateExecutionPriceFromOrderbook] of the spot market service,
    - the getters and the [reset], [resetAuthZ], [resetAutoSign] and
      [connectAuthZ] actions of the wallet store,
    together with the properties stated about them.

    Stateful code is a computation over a [World]: the ambient stores, the
    stream registry, and a log of the effects on the remote indexer and on
    the streaming interface.  An awaited call either resolves or rejects; a
    rejection propagates as an exception.  A run of [validate] is taken on
    its own: nothing else touches the stores while it awaits. *)

From stdpp Require Import gmap strings list fin_maps.

Open Scope string_scope.
Open Scope list_scope.

(** ** JavaScript values used by the code *)

(** Truthiness of [T | undefined] where [T] is an object type: an object is
    always truthy, [undefined] is falsy. *)
Definition truthy {A : Type} (o : option A) : bool :=
  match o with
  | Some _ => true
  | None => false
  end.

(** Truthiness of a string: only the empty string is falsy. *)
Definition truthy_string (s : string) : bool :=
  negb (String.eqb s "").

(** ** Positions and [verifyData] *)

(** The two fields of the SDK's [Position] that the strategy reads.  The
    timestamp is an integer number of milliseconds, on which [===] is
    equality. *)
Record Position := mkPosition {
  marketId : string;
  updatedAt : Z
}.

(** The arrow function passed to [latestPositions.find]:
    [existingPosition?.marketId === latestPosition?.marketId &&
     existingPosition?.updatedAt === latestPosition?.updatedAt]. *)
Definition matches (existingPosition latestPosition : Position) : bool :=
  String.eqb (marketId existingPosition) (marketId latestPosition)
  && Z.eqb (updatedAt existingPosition) (updatedAt latestPosition).

(** [existingPositions.every(e => latestPositions.find(l => ...))]:
    [find] yields the first matching element or [undefined], and [every]
    tests the truthiness of what [find] yields. *)
Definition verifyData (existingPositions latestPositions : list Position) : bool :=
  forallb
    (fun existingPosition =>
       truthy (find (matches existingPosition) latestPositions))
    existingPositions.

(** ** Streams, the remote indexer and the stores *)

(** The stream-kind tags: the four members of [SpotMarketStreamType] and the
    member of [SubaccountStreamType] that [cancelMarketStreams] names, and
    the tag of the positions store's own subscription. *)
Inductive StreamKind :=
| Orderbook
| SubaccountOrders
| SubaccountTrades
| Trades
| Balances
| SubaccountPositions.

#[global] Instance StreamKind_eq_dec : EqDecision StreamKind.
Proof. solve_decision. Defined.

#[global] Instance StreamKind_countable : Countable StreamKind.
Proof.
  refine (inj_countable'
    (λ k, match k with
          | Orderbook => 0 | SubaccountOrders => 1 | SubaccountTrades => 2
          | Trades => 3 | Balances => 4 | SubaccountPositions => 5
          end)
    (λ n, match n with
          | 0 => Orderbook | 1 => SubaccountOrders | 2 => SubaccountTrades
          | 3 => Trades | 4 => Balances | _ => SubaccountPositions
          end) _).
  by intros [].
Defined.

(** An opaque subscription token. *)
Definition Handle := nat.

(** The argument of [indexerDerivativesApi.fetchPositions]. *)
Record FetchPositionsRequest := mkRequest {
  reqSubaccountId : string;
  reqMarketIds : list string
}.

(** A snapshot as the code can see it at run time: [Position[]], or
    [undefined] ([None]), which [validate] guards against. *)
Definition Snapshot := option (list Position).

(** What the awaited remote call settles to: the [positions] field of the
    response, or a rejection. *)
Inductive Reply :=
| Resolved (positions : Snapshot)
| Rejected.

(** The remote indexer: its answer to the [n]-th call made to it.  Two calls
    with the same request need not be answered alike. *)
Definition Indexer := nat → FetchPositionsRequest → Reply.

(** Effects on the external collaborators, in the order they happen. *)
Inductive Event :=
| FetchPositions (req : FetchPositionsRequest)
| StreamOpened (kind : StreamKind) (subaccount : string)
    (market : option string) (h : Handle)
| StreamCancelled (h : Handle).

(** The ambient stores the strategy reaches for, the stream registry, and
    the record of external effects. *)
Record World := mkWorld {
  isUserConnected : bool;               (* sharedWalletStore *)
  subaccountId : string;                (* accountStore; '' when unset *)
  activeMarketIds : list string;        (* derivativeStore *)
  subaccountPositions : Snapshot;       (* positionStore: the cached snapshot *)
  streams : gmap StreamKind Handle;     (* the registry of live handles *)
  nextHandle : Handle;                  (* next token the stream API hands out *)
  fetches : nat;                        (* calls made to the indexer so far *)
  log : list Event
}.

Definition set_subaccountPositions (ps : Snapshot) (w : World) : World :=
  mkWorld (isUserConnected w) (subaccountId w) (activeMarketIds w) ps
          (streams w) (nextHandle w) (fetches w) (log w).

Definition set_streams (m : gmap StreamKind Handle) (w : World) : World :=
  mkWorld (isUserConnected w) (subaccountId w) (activeMarketIds w)
          (subaccountPositions w) m (nextHandle w) (fetches w) (log w).

Definition set_nextHandle (h : Handle) (w : World) : World :=
  mkWorld (isUserConnected w) (subaccountId w) (activeMarketIds w)
          (subaccountPositions w) (streams w) h (fetches w) (log w).

Definition set_fetches (n : nat) (w : World) : World :=
  mkWorld (isUserConnected w) (subaccountId w) (activeMarketIds w)
          (subaccountPositions w) (streams w) (nextHandle w) n (log w).

Definition set_log (l : list Event) (w : World) : World :=
  mkWorld (isUserConnected w) (subaccountId w) (activeMarketIds w)
          (subaccountPositions w) (streams w) (nextHandle w) (fetches w) l.

(** ** Computations: state passing with exceptions *)

Inductive Exception :=
| FetchFailure      (* the rejection of the awaited fetch *)
| NotIterable.      (* TypeError of spreading [undefined] *)

Inductive Outcome (A : Type) :=
| Done (a : A)
| Threw (e : Exception).
Arguments Done {A} a.
Arguments Threw {A} e.

Definition Run (A : Type) : Type := World → Outcome A * World.

#[global] Instance Run_ret : MRet Run := λ A a w, (Done a, w).

#[global] Instance Run_bind : MBind Run := λ A B f m w,
  match m w with
  | (Done a, w') => f a w'
  | (Threw e, w') => (Threw e, w')
  end.

Definition get : Run World := λ w, (Done w, w).
Definition modify (f : World → World) : Run unit := λ w, (Done tt, f w).
Definition throw {A : Type} (e : Exception) : Run A := λ w, (Threw e, w).
Definition emit (e : Event) : Run unit :=
  modify (λ w, set_log (log w ++ [e]) w).

(** ** The stream manager *)

Module streamManager.

(** Modelled from the spec: the [StreamManager] singleton is imported from
    [../singletons/StreamManager], which is not among the sources.
    [set(handle, kind)] registers the handle under [kind], superseding any
    prior handle of that kind without cancelling it. *)
Definition set (h : Handle) (kind : StreamKind) : Run unit :=
  modify (λ w, set_streams (<[kind := h]> (streams w)) w).

(** Modelled from the spec: [cancelIfExists(kind)] of the absent
    [StreamManager] cancels and deregisters the handle registered for
    [kind] if there is one, and is a no-op, not an error, if there is none. *)
Definition cancelIfExists (kind : StreamKind) : Run unit :=
  w ← get;
  match streams w !! kind with
  | Some h =>
      emit (StreamCancelled h);;
      modify (λ w, set_streams (delete kind (streams w)) w)
  | None => mret tt
  end.

End streamManager.

(** [cancelMarketStreams] of the spot service. *)
Definition cancelMarketStreams : Run unit :=
  streamManager.cancelIfExists Orderbook;;
  streamManager.cancelIfExists SubaccountOrders;;
  streamManager.cancelIfExists SubaccountTrades;;
  streamManager.cancelIfExists Trades;;
  streamManager.cancelIfExists Balances.

(** ** The positions store *)

Module positionStore.

(** [positionStore.$patch({ subaccountPositions })]: the field is assigned
    the value it is given. *)
Definition patch_subaccountPositions (ps : Snapshot) : Run unit :=
  modify (set_subaccountPositions ps).

(** Modelled from the spec: the positions store's
    [cancelSubaccountPositionsStream] action is not among the sources; it
    cancels the store's current stream, through [cancelIfExists] for the
    store's stream kind. *)
Definition cancelSubaccountPositionsStream : Run unit :=
  streamManager.cancelIfExists SubaccountPositions.

(** Modelled from the spec: the positions store's
    [streamSubaccountPositions(marketId)] action is not among the sources;
    it opens a subscription for the active subaccount scoped to [marketId]
    (if any) through [open(scope, callback) -> handle], and registers the
    handle under the store's stream kind. *)
Definition streamSubaccountPositions (marketId : option string) : Run unit :=
  w ← get;
  let h := nextHandle w in
  modify (set_nextHandle (S h));;
  emit (StreamOpened SubaccountPositions (subaccountId w) marketId h);;
  streamManager.set h SubaccountPositions.

End positionStore.

(** ** [DerivativeSubaccountPositionIntegrityStrategy] *)

Section Strategy.

(** [this.args], of type [MarketIdsArgs = string[] | undefined]. *)
Variable args : option (list string).

(** The remote indexer behind [indexerDerivativesApi]. *)
Variable api : Indexer.

(** [fetchData]: one call to [indexerDerivativesApi.fetchPositions] with
    [marketIds || derivativeStore.activeMarketIds]; an array is truthy even
    when empty. *)
Definition fetchData : Run Snapshot :=
  let marketIds := args in
  w ← get;
  let req := mkRequest (subaccountId w)
               (match marketIds with
                | Some ids => ids
                | None => activeMarketIds w
                end) in
  modify (set_fetches (S (fetches w)));;
  emit (FetchPositions req);;
  match api (fetches w) req with
  | Resolved latestPositions => mret latestPositions
  | Rejected => throw FetchFailure
  end.

(** [[...positionStore.subaccountPositions]]. *)
Definition spread (ps : Snapshot) : Run (list Position) :=
  match ps with
  | Some l => mret l
  | None => throw NotIterable
  end.

(** [validate]. *)
Definition validate : Run unit :=
  let marketIds := args in
  w ← get;
  if negb (isUserConnected w) || negb (truthy_string (subaccountId w))
  then mret tt
  else
    latestPositions ← fetchData;
    match latestPositions with
    | None => mret tt
    | Some latest =>
        if Nat.eqb (length latest) 0 then mret tt
        else
          w ← get;
          existingPositions ← spread (subaccountPositions w);
          let isDataValid := verifyData existingPositions latest in
          if negb isDataValid then
            positionStore.cancelSubaccountPositionsStream;;
            refetched ← fetchData;
            positionStore.patch_subaccountPositions refetched;;
            let marketId := head (default [] marketIds) in
            positionStore.streamSubaccountPositions marketId
          else mret tt
    end.

End Strategy.

(** ** Subaccount balances *)

(** The [deposit] message of a gRPC balance. *)
Record Deposit := mkDeposit {
  totalBalance : string;
  availableBalance : string
}.

(** [SubaccountBalance]: the deposit may be absent. *)
Record SubaccountBalance := mkSubaccountBalance {
  denom : string;
  deposit : option Deposit
}.

(** [UiSubaccountBalance], as the transformer builds it. *)
Record UiSubaccountBalance := mkUiSubaccountBalance {
  uiDenom : string;
  uiTotalBalance : string;
  uiAvailableBalance : string
}.

(** [grpcSubaccountBalanceToUiSubaccountBalance]. *)
Definition grpcSubaccountBalanceToUiSubaccountBalance
    (balance : SubaccountBalance) : UiSubaccountBalance :=
  {| uiDenom := denom balance;
     uiTotalBalance :=
       match deposit balance with
       | Some d => totalBalance d
       | None => "0"
       end;
     uiAvailableBalance :=
       match deposit balance with
       | Some d => availableBalance d
       | None => "0"
       end |}.

(** The object literal that [fetchSubaccount] maps every balance to. *)
Record UiBalanceWithToken (Token : Type) := mkUiBalanceWithToken {
  bDenom : string;
  bToken : Token;
  bTotalBalance : string;
  bAvailableBalance : string
}.
Arguments mkUiBalanceWithToken {Token}.
Arguments bDenom {Token}.
Arguments bToken {Token}.
Arguments bTotalBalance {Token}.
Arguments bAvailableBalance {Token}.

(** [UiSubaccount]. *)
Record UiSubaccount (Token : Type) := mkUiSubaccount {
  uiSubaccountId : string;
  balances : list (UiBalanceWithToken Token)
}.
Arguments mkUiSubaccount {Token}.
Arguments uiSubaccountId {Token}.
Arguments balances {Token}.

Section Account.

(** The token lookup of [~/app/transformers/peggy], which is not among the
    sources, is a parameter. *)
Context {Token : Type}.
Variable peggyDenomToTokenFromContractAddress : string → Token.

(** The arrow function of the [.map] inside [fetchSubaccount]. *)
Definition fetchSubaccount_balance (balance : SubaccountBalance)
    : UiBalanceWithToken Token :=
  {| bDenom := denom balance;
     bToken := peggyDenomToTokenFromContractAddress (denom balance);
     bTotalBalance :=
       match deposit balance with
       | Some d => availableBalance d
       | None => "0"
       end;
     bAvailableBalance :=
       match deposit balance with
       | Some d => totalBalance d
       | None => "0"
       end |}.

(** [fetchSubaccount], from the balances the consumer fetched and
    [grpcBalancesToBalances] decoded. *)
Definition fetchSubaccount (subaccountId : string)
    (fetched : list SubaccountBalance) : UiSubaccount Token :=
  {| uiSubaccountId := subaccountId;
     balances := map fetchSubaccount_balance fetched |}.

End Account.

(** The (totalBalance, availableBalance) pair of each mapper's output. *)
Definition ui_pair (b : UiSubaccountBalance) : string * string :=
  (uiTotalBalance b, uiAvailableBalance b).

Definition balance_pair {Token : Type} (b : UiBalanceWithToken Token)
    : string * string :=
  (bTotalBalance b, bAvailableBalance b).

(** ** The app store *)

(** [GeoLocation]. *)
Record GeoLocation := mkGeoLocation {
  continent : string;
  country : string;
  browserCountry : string;
  vpnCheckTimestamp : Z
}.

(** [UserBasedState.preferences]; the two layout enumerations are kept by
    their string value. *)
Record Preferences := mkPreferences {
  isHideBalances : bool;
  authZManagement : bool;
  thousandsSeparator : bool;
  tradingLayout : string;
  subaccountManagement : bool;
  orderbookLayout : string;
  skipTradeConfirmationModal : bool;
  skipExperimentalConfirmationModal : bool;
  showGridTradingSubaccounts : bool
}.

(** [UserBasedState]; banners and modals are kept by their string value. *)
Record UserBasedState := mkUserBasedState {
  favoriteMarkets : list string;
  bannersViewed : list string;
  modalsViewed : list string;
  geoLocation : GeoLocation;
  preferences : Preferences
}.

(** [AppStoreState]. *)
Record AppStoreState := mkAppStoreState {
  blockHeight : Z;
  locale : string;
  chainId : string;
  gasPrice : string;
  ethereumChainId : Z;
  marketsOpen : bool;
  devMode : option bool;
  userState : UserBasedState
}.

(** [appStore.$patch({ userState })]. *)
Definition patch_userState (u : UserBasedState) (s : AppStoreState)
    : AppStoreState :=
  {| blockHeight := blockHeight s;
     locale := locale s;
     chainId := chainId s;
     gasPrice := gasPrice s;
     ethereumChainId := ethereumChainId s;
     marketsOpen := marketsOpen s;
     devMode := devMode s;
     userState := u |}.

(** [toggleFavoriteMarket]: the patch is
    [{ ...appStore.userState, favoriteMarkets }]. *)
Definition toggleFavoriteMarket (marketId : string) (appStore : AppStoreState)
    : AppStoreState :=
  let cachedFavoriteMarkets := favoriteMarkets (userState appStore) in
  let favoriteMarkets' :=
    if bool_decide (marketId ∈ cachedFavoriteMarkets)
    then filter (λ m, m ≠ marketId) cachedFavoriteMarkets
    else marketId :: cachedFavoriteMarkets in
  patch_userState
    {| favoriteMarkets := favoriteMarkets';
       bannersViewed := bannersViewed (userState appStore);
       modalsViewed := modalsViewed (userState appStore);
       geoLocation := geoLocation (userState appStore);
       preferences := preferences (userState appStore) |}
    appStore.

(** ** Vocabulary of the properties *)

(** The (market identifier, last-update timestamp) key equality. *)
Definition sameKey (c f : Position) : Prop :=
  marketId c = marketId f ∧ updatedAt c = updatedAt f.

(** The guard of [validate]: a connected wallet and a subaccount id. *)
Definition connected (w : World) : bool :=
  isUserConnected w && truthy_string (subaccountId w).

(** The request [fetchData] sends from world [w]. *)
Definition request_of (args : option (list string)) (w : World)
    : FetchPositionsRequest :=
  mkRequest (subaccountId w) (default (activeMarketIds w) args).

(** The world after one fetch and nothing else. *)
Definition after_fetch (args : option (list string)) (w : World) : World :=
  set_log (log w ++ [FetchPositions (request_of args w)])
          (set_fetches (S (fetches w)) w).

(** No mutation between [w] and [w']: the stores and the stream registry
    are the same, no stream was opened or cancelled; the only effects are
    the [n] fetches sent to the indexer. *)
Definition unmutated (n : nat) (w w' : World) : Prop :=
  isUserConnected w' = isUserConnected w
  ∧ subaccountId w' = subaccountId w
  ∧ activeMarketIds w' = activeMarketIds w
  ∧ subaccountPositions w' = subaccountPositions w
  ∧ streams w' = streams w
  ∧ nextHandle w' = nextHandle w
  ∧ fetches w' = fetches w + n
  ∧ ∃ reqs, length reqs = n ∧ log w' = log w ++ map FetchPositions reqs.

(** Unfolding of the computation primitives. *)
Ltac run_unfold :=
  unfold mbind, Run_bind, mret, Run_ret, get, modify, emit, throw; cbn.

(** The resynchronisation branch of [validate]. *)
Definition resync (args : option (list string)) (api : Indexer) : Run unit :=
  positionStore.cancelSubaccountPositionsStream;;
  refetched ← fetchData args api;
  positionStore.patch_subaccountPositions refetched;;
  positionStore.streamSubaccountPositions (head (default [] args)).

(** The cancellation the positions store performs from world [w]. *)
Definition cancel_events (w : World) : list Event :=
  match streams w !! SubaccountPositions with
  | Some h => [StreamCancelled h]
  | None => []
  end.

(** What the resynchronisation leaves behind when it starts from [w] and
    the second fetch resolves to [G]: the first fetch, the cancellation of
    the registered positions stream, the second fetch, the cache holding
    [G], and a fresh positions stream for the first market id (if any)
    registered in place of the old one. *)
Definition resynced (args : option (list string)) (w : World) (G : Snapshot)
    (w' : World) : Prop :=
  log w' =
    log w ++ [FetchPositions (request_of args w)] ++ cancel_events w
      ++ [FetchPositions (request_of args w);
          StreamOpened SubaccountPositions (subaccountId w)
            (head (default [] args)) (nextHandle w)]
  ∧ subaccountPositions w' = G
  ∧ streams w' = <[SubaccountPositions := nextHandle w]> (streams w)
  ∧ nextHandle w' = S (nextHandle w)
  ∧ fetches w' = fetches w + 2
  ∧ isUserConnected w' = isUserConnected w
  ∧ subaccountId w' = subaccountId w
  ∧ activeMarketIds w' = activeMarketIds w.

(** The world after [cancelIfExists kind]. *)
Definition cancelled (kind : StreamKind) (w : World) : World :=
  match streams w !! kind with
  | Some h =>
      set_streams (delete kind (streams w))
        (set_log (log w ++ [StreamCancelled h]) w)
  | None => w
  end.

(** A connected world whose cache holds market A as of 100, with positions
    stream 7 registered. *)
Definition w_sample : World :=
  mkWorld true "0xsub" ["M"] (Some [mkPosition "A" 100])
    {[SubaccountPositions := 7]} 8 0 [].

(** An indexer that always gives the same answer. *)
Definition api_const (r : Reply) : Indexer := λ _ _, r.

(** An indexer whose first answer has market A as of 200 and whose later
    answers are empty. *)
Definition api_then_empty : Indexer := λ n _,
  match n with
  | 0 => Resolved (Some [mkPosition "A" 200])
  | _ => Resolved (Some [])
  end.

(** A world with the wallet disconnected. *)
Definition w_disconnected : World :=
  mkWorld false "0xsub" ["M"] (Some [mkPosition "A" 100])
    {[SubaccountPositions := 7]} 8 0 [].

(** A connected world whose cache is empty. *)
Definition w_empty_cache : World :=
  mkWorld true "0xsub" ["M"] (Some []) ∅ 0 0 [].

(** A balance without a deposit. *)
Definition balance_no_deposit : SubaccountBalance :=
  mkSubaccountBalance "inj" None.

(** Every field of the app store other than [userState.favoriteMarkets]
    is the same in [s] and [s']. *)
Definition same_but_favorites (s s' : AppStoreState) : Prop :=
  blockHeight s' = blockHeight s
  ∧ locale s' = locale s
  ∧ chainId s' = chainId s
  ∧ gasPrice s' = gasPrice s
  ∧ ethereumChainId s' = ethereumChainId s
  ∧ marketsOpen s' = marketsOpen s
  ∧ devMode s' = devMode s
  ∧ bannersViewed (userState s') = bannersViewed (userState s)
  ∧ modalsViewed (userState s') = modalsViewed (userState s)
  ∧ geoLocation (userState s') = geoLocation (userState s)
  ∧ preferences (userState s') = preferences (userState s).

(** The favourites of a store. *)
Definition favorites (s : AppStoreState) : list string :=
  favoriteMarkets (userState s).

(** ** Decidable equality of the data *)

#[global] Instance Position_eq_dec : EqDecision Position.
Proof. solve_decision. Defined.

(** ** Vocabulary of the further properties *)

(** What any run of [validate] can have done between [w] and [w']: the
    wallet, account and market stores are as before, streams of other kinds
    are registered as before, at most two fetches were sent, at most one
    handle was handed out, and the log has only grown, by at most four
    events. *)
Definition bounded_effects (w w' : World) : Prop :=
  isUserConnected w' = isUserConnected w
  ∧ subaccountId w' = subaccountId w
  ∧ activeMarketIds w' = activeMarketIds w
  ∧ (∀ k, k ≠ SubaccountPositions → streams w' !! k = streams w !! k)
  ∧ (fetches w ≤ fetches w' ≤ fetches w + 2)%nat
  ∧ (nextHandle w ≤ nextHandle w' ≤ S (nextHandle w))%nat
  ∧ ∃ l, log w' = log w ++ l ∧ (length l ≤ 4)%nat.

(** An indexer whose first answer has market A as of 200 and which rejects
    every later call. *)
Definition api_then_rejected : Indexer := λ n _,
  match n with
  | 0 => Resolved (Some [mkPosition "A" 200])
  | _ => Rejected
  end.

(** The kinds [cancelMarketStreams] cancels, in its order. *)
Definition market_stream_kinds : list StreamKind :=
  [Orderbook; SubaccountOrders; SubaccountTrades; Trades; Balances].

(** ** The spot market service: [fetchMarkets] *)

Section SpotMarkets.

(** The SDK's market and summary types, and the transformer
    [spotMarketToUiSpotMarket] of [~/app/transformers/spot], are not among
    the sources; they are parameters.  The transformer's second argument is
    what [find] yielded: the non-null assertion [!] is erased at run time. *)
Context {Market Summary UiSpotMarket : Type}.
Variable market_marketId : Market → string.
Variable summary_marketId : Summary → string.
Variable spotMarketToUiSpotMarket : Market → option Summary → UiSpotMarket.

(** [marketsSummary.find((m) => m.marketId === market.marketId)]. *)
Definition findSummary (marketsSummary : list Summary) (market : Market)
    : option Summary :=
  find (λ m, String.eqb (summary_marketId m) (market_marketId market))
       marketsSummary.

(** [fetchMarkets], from the markets and the summaries the two consumers
    fetched. *)
Definition fetchMarkets (markets : list Market)
    (marketsSummary : list Summary) : list UiSpotMarket :=
  let marketWithSummaries :=
    List.filter (λ market, truthy (findSummary marketsSummary market))
                markets in
  map (λ market,
         let marketSummary := findSummary marketsSummary market in
         spotMarketToUiSpotMarket market marketSummary)
      marketWithSummaries.

End SpotMarkets.

(** ** The spot market service: [calculateExecutionPriceFromOrderbook] *)

From Stdlib Require Import QArith Qminmax Lqa.
Close Scope Q_scope.

(** [UiPriceLevel]: the price and the quantity, by the numbers they
    denote. *)
Record UiPriceLevel := mkPriceLevel {
  price : Q;
  quantity : Q
}.

Section ExecutionPrice.

(** [BigNumberInBase.toWei(decimals)] and [BigNumber.div] belong to the
    number library, which is not among the sources; they are parameters.
    [plus], [minus], [times] and [min] are exact on finite numbers. *)
Context {BigNumber : Type}.
Variable toWei : Q → Z → Q.
Variable div : Q → Q → BigNumber.

(** [market.baseToken.decimals] and [market.quoteToken.decimals]. *)
Variable baseDecimals quoteDecimals : Z.

(** The reducer: the accumulator is [{ sum, remainAmountToFill }]. *)
Definition fillStep (acc : Q * Q) (order : UiPriceLevel) : Q * Q :=
  let '(sum, remainAmountToFill) := acc in
  let min := Qmin remainAmountToFill (quantity order) in
  let price := toWei (price order) (baseDecimals - quoteDecimals) in
  (Qplus sum (Qmult price min), Qminus remainAmountToFill min).

(** [records.reduce(..., { sum: ZERO_IN_BASE, remainAmountToFill: amount })]. *)
Definition fillOrders (records : list UiPriceLevel) (amount : Q) : Q * Q :=
  fold_left fillStep records (0%Q, amount).

(** [calculateExecutionPriceFromOrderbook]. *)
Definition calculateExecutionPriceFromOrderbook
    (records : list UiPriceLevel) (amount : Q) : BigNumber :=
  let '(sum, remainAmountToFill) := fillOrders records amount in
  div sum (Qminus amount remainAmountToFill).

End ExecutionPrice.

(** The total quantity on offer in the records. *)
Definition totalQuantity (records : list UiPriceLevel) : Q :=
  foldr (λ order acc, Qplus (quantity order) acc) 0%Q records.

(** A book offering 3 at price 2, then 5 at price 3. *)
Definition book_sample : list UiPriceLevel :=
  [mkPriceLevel 2%Q 3%Q; mkPriceLevel 3%Q 5%Q].

(** A conversion that leaves the price as it is. *)
Definition toWei_id : Q → Z → Q := λ p _, p.

(** ** The app store: user state *)



(** ** The wallet store *)

Module Wallet.

(** The members of [GrantDirection] the store names. *)
Inductive GrantDirection := Grantee | Granter.

(** The members of [WalletConnectStatus] the store names. *)
Inductive WalletConnectStatus := idle | connecting | connected.

(** [WalletStoreState.authZ]. *)
Record AuthZ := mkAuthZ {
  authZ_address : string;
  authZ_direction : GrantDirection;
  authZ_injectiveAddress : string;
  authZ_defaultSubaccountId : string
}.

(** [WalletStoreState.autoSign], when defined. *)
Record AutoSign := mkAutoSign {
  autoSign_privateKey : string;
  autoSign_injectiveAddress : string;
  autoSign_expiration : Z
}.

(** [WalletStoreState]; the [Wallet] enumeration is kept by its string
    value. *)
Record WalletStoreState := mkWalletStoreState {
  wallet : string;
  address : string;
  addresses : list string;
  injectiveAddress : string;
  defaultSubaccountId : string;
  addressConfirmation : string;
  trustWalletInstalled : bool;
  metamaskInstalled : bool;
  phantomInstalled : bool;
  okxWalletInstalled : bool;
  bitGetInstalled : bool;
  walletConnectStatus : WalletConnectStatus;
  authZ : AuthZ;
  autoSign : option AutoSign
}.

(** The getters. *)
Definition isUserWalletConnected (state : WalletStoreState) : bool :=
  let addressConnectedAndConfirmed :=
    truthy_string (address state)
    && truthy_string (addressConfirmation state) in
  let hasAddresses := Nat.ltb 0 (length (addresses state)) in
  hasAddresses && addressConnectedAndConfirmed
  && truthy_string (injectiveAddress state).

Definition isAuthzWalletConnected (state : WalletStoreState) : bool :=
  let addressConnectedAndConfirmed :=
    truthy_string (address state)
    && truthy_string (addressConfirmation state) in
  let hasAddresses := Nat.ltb 0 (length (addresses state)) in
  let isUserWalletConnected :=
    hasAddresses && addressConnectedAndConfirmed
    && truthy_string (injectiveAddress state) in
  isUserWalletConnected
  && truthy_string (authZ_address (authZ state))
  && truthy_string (authZ_injectiveAddress (authZ state)).

(** [a || b] on strings: [a] unless it is empty. *)
Definition or_string (a b : string) : string :=
  if truthy_string a then a else b.

Definition authZOrInjectiveAddress (state : WalletStoreState) : string :=
  or_string (authZ_injectiveAddress (authZ state)) (injectiveAddress state).



(** What the wallet store's actions do outside the store. *)
Inductive WalletEffect :=
| BusWalletConnected            (* useEventBus(BusEvents.WalletConnected).emit() *)
| BusSubaccountChange           (* useEventBus(BusEvents.SubaccountChange).emit() *)
| StrategySetWallet (w : string).  (* walletStrategy.setWallet *)

(** The wallet store, the account store's subaccount id, and the effects
    so far. *)
Record WalletWorld := mkWalletWorld {
  walletStore : WalletStoreState;
  accountSubaccountId : string;
  effects : list WalletEffect
}.

Definition patch_wallet (f : WalletStoreState → WalletStoreState)
    (w : WalletWorld) : WalletWorld :=
  mkWalletWorld (f (walletStore w)) (accountSubaccountId w) (effects w).

Definition patch_account (subaccountId : string) (w : WalletWorld)
    : WalletWorld :=
  mkWalletWorld (walletStore w) subaccountId (effects w).

Definition effect (e : WalletEffect) (w : WalletWorld) : WalletWorld :=
  mkWalletWorld (walletStore w) (accountSubaccountId w) (effects w ++ [e]).

Definition with_authZ (a : AuthZ) (s : WalletStoreState) : WalletStoreState :=
  mkWalletStoreState (wallet s) (address s) (addresses s)
    (injectiveAddress s) (defaultSubaccountId s) (addressConfirmation s)
    (trustWalletInstalled s) (metamaskInstalled s) (phantomInstalled s)
    (okxWalletInstalled s) (bitGetInstalled s) (walletConnectStatus s)
    a (autoSign s).

Definition with_autoSign (a : option AutoSign) (s : WalletStoreState)
    : WalletStoreState :=
  mkWalletStoreState (wallet s) (address s) (addresses s)
    (injectiveAddress s) (defaultSubaccountId s) (addressConfirmation s)
    (trustWalletInstalled s) (metamaskInstalled s) (phantomInstalled s)
    (okxWalletInstalled s) (bitGetInstalled s) (walletConnectStatus s)
    (authZ s) a.

(** The [authZ] of [initialStateFactory()]. *)
Definition initial_authZ : AuthZ := mkAuthZ "" Grantee "" "".

Section WalletActions.

(** [getEthereumAddress] and [getDefaultSubaccountId] of the SDK are
    parameters, taken to return normally. *)
Variable getEthereumAddress : string → string.
Variable getDefaultSubaccountId : string → string.

(** [connectAuthZ(injectiveAddress, direction = GrantDirection.Granter)]. *)
Definition connectAuthZ (injectiveAddress : string)
    (direction : option GrantDirection) (w : WalletWorld) : WalletWorld :=
  let direction := default Granter direction in
  let w := patch_wallet
             (with_authZ
                {| authZ_direction := direction;
                   authZ_injectiveAddress := injectiveAddress;
                   authZ_address := getEthereumAddress injectiveAddress;
                   authZ_defaultSubaccountId :=
                     getDefaultSubaccountId injectiveAddress |}) w in
  let w := patch_account (getDefaultSubaccountId injectiveAddress) w in
  effect BusSubaccountChange (effect BusWalletConnected w).

End WalletActions.

(** [resetAutoSign]. *)
Definition resetAutoSign (w : WalletWorld) : WalletWorld :=
  let w := patch_wallet (with_autoSign None) w in
  effect (StrategySetWallet (wallet (walletStore w))) w.

(** [reset]: the six fields destructured from [initialStateFactory()] are
    patched after [resetAutoSign]. *)
Definition reset (w : WalletWorld) : WalletWorld :=
  let w := resetAutoSign w in
  patch_wallet
    (λ s, mkWalletStoreState (wallet s) "" [] "" "" ""
            (trustWalletInstalled s) (metamaskInstalled s)
            (phantomInstalled s) (okxWalletInstalled s) (bitGetInstalled s)
            (walletConnectStatus s) initial_authZ (autoSign s))
    w.

(** [resetAuthZ]. *)
Definition resetAuthZ (w : WalletWorld) : WalletWorld :=
  let w := patch_wallet (with_authZ (mkAuthZ "" Grantee "" "")) w in
  let w := patch_account (defaultSubaccountId (walletStore w)) w in
  effect BusSubaccountChange (effect BusWalletConnected w).

End Wallet.

(** ** Sample data of the further properties *)

(** A store with favourites a and b. *)
Definition store_sample : AppStoreState :=
  mkAppStoreState 0 "en" "injective-1" "1" 1 false None
    (mkUserBasedState ["a"; "b"] [] [] (mkGeoLocation "" "" "" 0)
       (mkPreferences false false true "left" false "default"
          false false false)).

(** A wallet connected through Metamask, acting for itself, next to the
    account store's subaccount id. *)
Definition wallet_sample : Wallet.WalletWorld :=
  Wallet.mkWalletWorld
    (Wallet.mkWalletStoreState "metamask" "0xabc" ["0xabc"] "inj1abc"
       "0xabc000" "confirmed" false true false false false Wallet.connected
       Wallet.initial_authZ
       (Some (Wallet.mkAutoSign "key" "inj1auto" 3600)))
    "0xabc000" [].


(** * Properties *)

Lemma matches_sameKey c f : matches c f = true ↔ sameKey c f.
Proof.
  unfold matches, sameKey.
  rewrite andb_true_iff, String.eqb_eq, Z.eqb_eq. done.
Qed.

Lemma truthy_find_iff c (F : list Position) :
  truthy (find (matches c) F) = true ↔ ∃ f, f ∈ F ∧ sameKey c f.
Proof.
  induction F as [|x F IH]; simpl.
  - split; [done|]. intros (f & Hf & _). by apply elem_of_nil in Hf.
  - destruct (matches c x) eqn:E; simpl.
    + split; [|done]. intros _. exists x. split; [left|by apply matches_sameKey].
    + rewrite IH. split.
      * intros (f & Hf & K). exists f. split; [by right|done].
      * intros (f & Hf & K). apply elem_of_cons in Hf as [->|Hf].
        -- apply matches_sameKey in K. congruence.
        -- by exists f.
Qed.

Lemma verifyData_true_iff (C F : list Position) :
  verifyData C F = true ↔ ∀ c, c ∈ C → ∃ f, f ∈ F ∧ sameKey c f.
Proof.
  unfold verifyData. induction C as [|x C IH]; simpl.
  - split; [|done]. intros _ c Hc. by apply elem_of_nil in Hc.
  - rewrite andb_true_iff, IH, truthy_find_iff. split.
    + intros [Hx HC] c Hc. apply elem_of_cons in Hc as [->|Hc]; auto.
    + intros H. split; [apply H; left|]. intros c Hc. apply H. by right.
Qed.

(** C1: [verifyData C F] is true exactly when every cached position has a
    fresh position with the same (marketId, updatedAt) pair; it is true for an
    empty cache, and false as soon as one cached position has no such
    counterpart. *)
Theorem verifyData_spec (C F : list Position) :
  (verifyData C F = true ↔ ∀ c, c ∈ C → ∃ f, f ∈ F ∧ sameKey c f)
  ∧ verifyData [] F = true
  ∧ ((∃ c, c ∈ C ∧ ∀ f, f ∈ F → ¬ sameKey c f) → verifyData C F = false).
Proof.
  split; [apply verifyData_true_iff|]. split; [done|].
  intros (c & Hc & Hno). apply not_true_is_false. intros Hv.
  destruct (proj1 (verifyData_true_iff C F) Hv c Hc) as (f & Hf & K).
  by apply (Hno f).
Qed.

(** The two scenarios of the specification. *)
Example verifyData_same_timestamp :
  verifyData [mkPosition "A" 100] [mkPosition "A" 100] = true.
Proof. reflexivity. Qed.

Example verifyData_newer_timestamp :
  verifyData [mkPosition "A" 100] [mkPosition "A" 200] = false.
Proof. reflexivity. Qed.

(** Order and extra fresh positions are irrelevant. *)
Example verifyData_subset_any_order :
  verifyData [mkPosition "B" 7; mkPosition "A" 100]
             [mkPosition "A" 100; mkPosition "C" 1; mkPosition "B" 7] = true.
Proof. reflexivity. Qed.

(** ** What a run of [validate] leaves behind *)

Lemma unmutated_refl w : unmutated 0 w w.
Proof.
  repeat split; auto. exists []. simpl. by rewrite app_nil_r.
Qed.

Lemma unmutated_after_fetch args w : unmutated 1 w (after_fetch args w).
Proof.
  repeat split; simpl; auto; [lia|]. by exists [request_of args w].
Qed.

Lemma connected_false_iff w :
  connected w = false ↔ isUserConnected w = false ∨ subaccountId w = "".
Proof.
  unfold connected, truthy_string.
  rewrite andb_false_iff, negb_false_iff, String.eqb_eq. done.
Qed.

Lemma connected_true_iff w :
  connected w = true ↔ isUserConnected w = true ∧ subaccountId w ≠ "".
Proof.
  unfold connected, truthy_string.
  rewrite andb_true_iff, negb_true_iff, String.eqb_neq. done.
Qed.

Lemma fetchData_eq args api w :
  fetchData args api w =
  (match api (fetches w) (request_of args w) with
   | Resolved ps => Done ps
   | Rejected => Threw FetchFailure
   end, after_fetch args w).
Proof.
  unfold fetchData, request_of, after_fetch. run_unfold.
  replace (match args with Some ids => ids | None => activeMarketIds w end)
    with (default (activeMarketIds w) args) by (by destruct args).
  by destruct (api _ _).
Qed.

(** [validate], once the guard is passed, continues from the fetch. *)
Lemma validate_guard_eq args api w :
  validate args api w =
  if connected w
  then (latestPositions ← fetchData args api;
        match latestPositions with
        | None => mret tt
        | Some latest =>
            if Nat.eqb (length latest) 0 then mret tt
            else
              w ← get;
              existingPositions ← spread (subaccountPositions w);
              if negb (verifyData existingPositions latest) then
                positionStore.cancelSubaccountPositionsStream;;
                refetched ← fetchData args api;
                positionStore.patch_subaccountPositions refetched;;
                positionStore.streamSubaccountPositions
                  (head (default [] args))
              else mret tt
        end) w
  else (Done tt, w).
Proof.
  unfold validate, connected. run_unfold.
  by destruct (isUserConnected w), (truthy_string (subaccountId w)).
Qed.

(** C5: with the wallet disconnected or no subaccount id set, [validate]
    returns at once: the world is left exactly as it was, so no fetch was
    sent and neither the cache nor the stream registry changed. *)
Theorem validate_disconnected_skips args api w :
  isUserConnected w = false ∨ subaccountId w = "" →
  validate args api w = (Done tt, w)
  ∧ fetches (validate args api w).2 = fetches w
  ∧ unmutated 0 w (validate args api w).2.
Proof.
  intros H. apply connected_false_iff in H.
  rewrite validate_guard_eq, H. simpl. auto using unmutated_refl.
Qed.

Lemma validate_connected_eq args api w :
  connected w = true →
  validate args api w =
  match api (fetches w) (request_of args w) with
  | Rejected => (Threw FetchFailure, after_fetch args w)
  | Resolved None => (Done tt, after_fetch args w)
  | Resolved (Some latest) =>
      if Nat.eqb (length latest) 0 then (Done tt, after_fetch args w)
      else match subaccountPositions w with
           | None => (Threw NotIterable, after_fetch args w)
           | Some existing =>
               if verifyData existing latest
               then (Done tt, after_fetch args w)
               else resync args api (after_fetch args w)
           end
  end.
Proof.
  intros Hc. rewrite validate_guard_eq, Hc.
  unfold mbind at 1, Run_bind at 1. rewrite fetchData_eq.
  destruct (api _ _) as [[latest|]|]; [|done|done].
  destruct (Nat.eqb _ _); [done|].
  unfold mbind at 1, Run_bind at 1, get.
  change (subaccountPositions (after_fetch args w)) with (subaccountPositions w).
  unfold mbind at 1, Run_bind at 1.
  destruct (subaccountPositions w) as [existing|]; cbn; [|done].
  by destruct (verifyData existing latest).
Qed.

Lemma cancelSubaccountPositionsStream_eq w :
  positionStore.cancelSubaccountPositionsStream w =
  (Done tt,
   set_streams (delete SubaccountPositions (streams w))
     (set_log (log w ++ cancel_events w) w)).
Proof.
  unfold positionStore.cancelSubaccountPositionsStream,
    streamManager.cancelIfExists, cancel_events.
  run_unfold. destruct (streams w !! SubaccountPositions) eqn:E; cbn.
  - done.
  - rewrite app_nil_r, delete_id by done. by destruct w.
Qed.

(** The resynchronisation when the second fetch resolves to [G]. *)
Lemma resync_resolved args api w G :
  api (fetches w) (request_of args w) = Resolved G →
  resync args api w =
  (Done tt,
   mkWorld (isUserConnected w) (subaccountId w) (activeMarketIds w) G
     (<[SubaccountPositions := nextHandle w]> (streams w))
     (S (nextHandle w)) (S (fetches w))
     (log w ++ cancel_events w
        ++ [FetchPositions (request_of args w);
            StreamOpened SubaccountPositions (subaccountId w)
              (head (default [] args)) (nextHandle w)])).
Proof.
  intros HG. unfold resync.
  unfold mbind at 1, Run_bind at 1.
  rewrite cancelSubaccountPositionsStream_eq.
  unfold mbind at 1, Run_bind at 1. rewrite fetchData_eq.
  unfold request_of at 1. cbn [fetches set_streams set_log subaccountId activeMarketIds].
  fold (request_of args w). rewrite HG.
  unfold positionStore.patch_subaccountPositions,
    positionStore.streamSubaccountPositions, streamManager.set, after_fetch,
    request_of.
  run_unfold. rewrite insert_delete_eq. by rewrite <- !app_assoc.
Qed.

(** The resynchronisation when the second fetch is rejected: the stream
    stays cancelled and the cache is not replaced. *)
Lemma resync_rejected args api w :
  api (fetches w) (request_of args w) = Rejected →
  resync args api w =
  (Threw FetchFailure,
   mkWorld (isUserConnected w) (subaccountId w) (activeMarketIds w)
     (subaccountPositions w)
     (delete SubaccountPositions (streams w))
     (nextHandle w) (S (fetches w))
     (log w ++ cancel_events w ++ [FetchPositions (request_of args w)])).
Proof.
  intros HG. unfold resync.
  unfold mbind at 1, Run_bind at 1.
  rewrite cancelSubaccountPositionsStream_eq.
  unfold mbind at 1, Run_bind at 1. rewrite fetchData_eq.
  unfold request_of at 1. cbn [fetches set_streams set_log subaccountId activeMarketIds].
  fold (request_of args w). rewrite HG.
  unfold after_fetch, request_of. cbn. by rewrite <- !app_assoc.
Qed.

(** The run of [validate] that resynchronises, second fetch resolving. *)
Lemma validate_resync_run args api w C F G :
  connected w = true →
  subaccountPositions w = Some C →
  api (fetches w) (request_of args w) = Resolved (Some F) →
  F ≠ [] →
  verifyData C F = false →
  api (S (fetches w)) (request_of args w) = Resolved G →
  ∃ w', validate args api w = (Done tt, w') ∧ resynced args w G w'.
Proof.
  intros Hc HC HF Hne Hv HG.
  rewrite validate_connected_eq by done.
  rewrite HF, HC, Hv.
  destruct F as [|f F]; [done|]. cbn [length Nat.eqb].
  rewrite (resync_resolved args api (after_fetch args w) G) by exact HG.
  eexists. split; [reflexivity|].
  unfold resynced, cancel_events. cbn.
  rewrite <- !app_assoc. repeat split; try done. lia.
Qed.

(** C2 (amended): when the wallet is connected, a subaccount is set, the
    fetched snapshot [F] is non-empty and [verifyData] rejects the cache,
    [validate] cancels the registered positions stream, fetches a second
    time, replaces the cache with what that second fetch resolves to, and
    re-opens a positions stream scoped to the first element of [marketIds]
    (if any). *)
Theorem validate_resyncs_with_refetch args api w C F G :
  isUserConnected w = true →
  subaccountId w ≠ "" →
  subaccountPositions w = Some C →
  api (fetches w) (request_of args w) = Resolved (Some F) →
  F ≠ [] →
  verifyData C F = false →
  api (S (fetches w)) (request_of args w) = Resolved G →
  ∃ w', validate args api w = (Done tt, w') ∧ resynced args w G w'.
Proof.
  intros Hu Hs. apply validate_resync_run. by apply connected_true_iff.
Qed.

(** When the indexer answers the second fetch as it answered the first, the
    cache ends up holding the verified snapshot. *)
Corollary validate_resyncs_stable_remote args api w C F :
  isUserConnected w = true →
  subaccountId w ≠ "" →
  subaccountPositions w = Some C →
  api (fetches w) (request_of args w) = Resolved (Some F) →
  api (S (fetches w)) (request_of args w) = Resolved (Some F) →
  F ≠ [] →
  verifyData C F = false →
  subaccountPositions (validate args api w).2 = Some F.
Proof.
  intros Hu Hs HC HF HG Hne Hv.
  destruct (validate_resync_run args api w C F (Some F))
    as (w' & -> & R); auto.
  { by apply connected_true_iff. }
  apply R.
Qed.

(** When the second fetch is rejected the rejection propagates; the stream
    stays cancelled, the cache is not replaced, no stream is opened. *)
Lemma validate_resync_refetch_rejected args api w C F :
  isUserConnected w = true →
  subaccountId w ≠ "" →
  subaccountPositions w = Some C →
  api (fetches w) (request_of args w) = Resolved (Some F) →
  F ≠ [] →
  verifyData C F = false →
  api (S (fetches w)) (request_of args w) = Rejected →
  ∃ w', validate args api w = (Threw FetchFailure, w')
    ∧ subaccountPositions w' = Some C
    ∧ streams w' = delete SubaccountPositions (streams w)
    ∧ log w' = log w ++ [FetchPositions (request_of args w)]
                 ++ cancel_events w ++ [FetchPositions (request_of args w)].
Proof.
  intros Hu Hs HC HF Hne Hv HG.
  rewrite validate_connected_eq by (by apply connected_true_iff).
  rewrite HF, HC, Hv.
  destruct F as [|f F]; [done|]. cbn [length Nat.eqb].
  rewrite (resync_rejected args api (after_fetch args w)) by exact HG.
  eexists. split; [reflexivity|]. unfold cancel_events. cbn.
  rewrite <- !app_assoc. by rewrite HC.
Qed.

(** C3: when [verifyData] accepts the cache against the fetched snapshot,
    [validate] mutates nothing: the cache and the registry are as before,
    no stream is cancelled or opened; the run's only effect is its fetch. *)
Theorem validate_valid_no_mutation args api w C F :
  isUserConnected w = true →
  subaccountId w ≠ "" →
  subaccountPositions w = Some C →
  api (fetches w) (request_of args w) = Resolved (Some F) →
  verifyData C F = true →
  ∃ w', validate args api w = (Done tt, w') ∧ unmutated 1 w w'.
Proof.
  intros Hu Hs HC HF Hv.
  rewrite validate_connected_eq by (by apply connected_true_iff).
  rewrite HF, HC, Hv. exists (after_fetch args w).
  split; [by destruct (Nat.eqb _ _)|apply unmutated_after_fetch].
Qed.

(** C4: when the fetch resolves to an empty or absent sequence, whatever
    the cache holds, [validate] returns normally and mutates nothing: the
    cache and the registry are as before, no stream is cancelled or
    opened. *)
Theorem validate_empty_fetch_no_mutation args api w :
  isUserConnected w = true →
  subaccountId w ≠ "" →
  api (fetches w) (request_of args w) = Resolved None
  ∨ api (fetches w) (request_of args w) = Resolved (Some []) →
  ∃ w', validate args api w = (Done tt, w') ∧ unmutated 1 w w'.
Proof.
  intros Hu Hs HF.
  rewrite validate_connected_eq by (by apply connected_true_iff).
  exists (after_fetch args w).
  split; [|apply unmutated_after_fetch].
  by destruct HF as [-> | ->].
Qed.

(** C6 (amended): with an empty cache [validate] mutates nothing, whatever
    the indexer answers; it does not skip the fetch: one fetch is sent when
    the wallet is connected and a subaccount is set, none otherwise. *)
Theorem validate_empty_cache_no_mutation args api w :
  subaccountPositions w = Some [] →
  ∃ o w', validate args api w = (o, w')
    ∧ unmutated (if connected w then 1 else 0) w w'.
Proof.
  intros HC. destruct (connected w) eqn:Hc.
  - rewrite validate_connected_eq, HC by done.
    destruct (api _ _) as [[latest|]|];
      [destruct (Nat.eqb _ _)|..];
      do 2 eexists; (split; [reflexivity|apply unmutated_after_fetch]).
  - rewrite validate_guard_eq, Hc. do 2 eexists.
    split; [reflexivity|apply unmutated_refl].
Qed.

(** C7: [cancelIfExists kind] never throws.  The first call cancels and
    deregisters the handle registered for [kind], if any, and changes
    nothing when there is none; a second call in succession changes
    nothing and cancels nothing. *)
Theorem cancelIfExists_twice kind w :
  ∃ w1, streamManager.cancelIfExists kind w = (Done tt, w1)
    ∧ match streams w !! kind with
      | Some h =>
          w1 = set_streams (delete kind (streams w))
                 (set_log (log w ++ [StreamCancelled h]) w)
      | None => w1 = w
      end
    ∧ streams w1 !! kind = None
    ∧ streamManager.cancelIfExists kind w1 = (Done tt, w1).
Proof.
  unfold streamManager.cancelIfExists. run_unfold.
  destruct (streams w !! kind) as [h|] eqn:E.
  - eexists. split; [reflexivity|]. split; [reflexivity|]. cbn.
    rewrite lookup_delete_eq. done.
  - exists w. by rewrite E.
Qed.

Lemma cancelIfExists_eq kind w :
  streamManager.cancelIfExists kind w = (Done tt, cancelled kind w).
Proof.
  unfold streamManager.cancelIfExists, cancelled. run_unfold.
  by destruct (streams w !! kind).
Qed.

Lemma streams_cancelled kind w :
  streams (cancelled kind w) = delete kind (streams w).
Proof.
  unfold cancelled. destruct (streams w !! kind) eqn:E; [done|].
  by rewrite delete_id.
Qed.

Lemma cancelled_absent kind w :
  streams w !! kind = None → cancelled kind w = w.
Proof. unfold cancelled. by intros ->. Qed.

(** X23: after [cancelMarketStreams] none of its five kinds is
    registered, and running it again changes nothing. *)
Lemma cancelMarketStreams_idempotent w :
  ∃ w1, cancelMarketStreams w = (Done tt, w1)
    ∧ cancelMarketStreams w1 = (Done tt, w1).
Proof.
  assert (Hrun : ∀ w, cancelMarketStreams w =
    (Done tt, cancelled Balances (cancelled Trades (cancelled SubaccountTrades
       (cancelled SubaccountOrders (cancelled Orderbook w)))))).
  { intros w0. unfold cancelMarketStreams.
    unfold mbind, Run_bind. by rewrite !cancelIfExists_eq. }
  set (w1 := cancelled Balances (cancelled Trades (cancelled SubaccountTrades
                (cancelled SubaccountOrders (cancelled Orderbook w))))).
  assert (Habs : ∀ k, k ≠ SubaccountPositions → streams w1 !! k = None).
  { intros k Hk. unfold w1. rewrite !streams_cancelled.
    destruct k; try done;
      repeat first [apply lookup_delete_eq | rewrite lookup_delete_ne by done]. }
  exists w1. split; [apply Hrun|]. rewrite Hrun. clearbody w1.
  by rewrite (cancelled_absent Orderbook w1),
    (cancelled_absent SubaccountOrders w1),
    (cancelled_absent SubaccountTrades w1),
    (cancelled_absent Trades w1),
    (cancelled_absent Balances w1) by (by apply Habs).
Qed.

(** ** Sample runs *)

Lemma validate_resyncs_with_refetch_witness :
  ∃ w', validate (Some ["A"; "B"])
          (api_const (Resolved (Some [mkPosition "A" 200]))) w_sample
        = (Done tt, w')
    ∧ resynced (Some ["A"; "B"]) w_sample (Some [mkPosition "A" 200]) w'.
Proof.
  apply (validate_resyncs_with_refetch (Some ["A"; "B"]) _ w_sample
           [mkPosition "A" 100] [mkPosition "A" 200]);
    first [reflexivity | discriminate].
Defined.

(** The scenario of the specification: the stream of market A is
    restarted and the cache holds the fresh data. *)
Example validate_scenario_resync :
  validate (Some ["A"]) (api_const (Resolved (Some [mkPosition "A" 200])))
    w_sample
  = (Done tt,
     mkWorld true "0xsub" ["M"] (Some [mkPosition "A" 200])
       {[SubaccountPositions := 8]} 9 2
       [FetchPositions (mkRequest "0xsub" ["A"]);
        StreamCancelled 7;
        FetchPositions (mkRequest "0xsub" ["A"]);
        StreamOpened SubaccountPositions "0xsub" (Some "A") 8]).
Proof. vm_compute. reflexivity. Qed.

(** C2, as stated, fails: the cache is replaced with the answer to a second
    fetch, which need not be the non-empty snapshot that was verified. *)
Lemma validate_resync_cache_is_second_fetch :
  isUserConnected w_sample = true
  ∧ subaccountId w_sample ≠ ""
  ∧ subaccountPositions w_sample = Some [mkPosition "A" 100]
  ∧ api_then_empty (fetches w_sample) (request_of (Some ["A"]) w_sample)
    = Resolved (Some [mkPosition "A" 200])
  ∧ [mkPosition "A" 200] ≠ []
  ∧ verifyData [mkPosition "A" 100] [mkPosition "A" 200] = false
  ∧ subaccountPositions (validate (Some ["A"]) api_then_empty w_sample).2
    = Some []
  ∧ subaccountPositions (validate (Some ["A"]) api_then_empty w_sample).2
    ≠ Some [mkPosition "A" 200].
Proof. repeat split; first [reflexivity | discriminate]. Qed.

Lemma validate_valid_no_mutation_witness :
  ∃ w', validate (Some ["A"])
          (api_const (Resolved (Some [mkPosition "A" 100]))) w_sample
        = (Done tt, w')
    ∧ unmutated 1 w_sample w'.
Proof.
  apply (validate_valid_no_mutation (Some ["A"]) _ w_sample
           [mkPosition "A" 100] [mkPosition "A" 100]);
    first [reflexivity | discriminate].
Defined.

(** The scenario of the specification: same timestamp, no resync. *)
Example validate_scenario_valid :
  validate (Some ["A"]) (api_const (Resolved (Some [mkPosition "A" 100])))
    w_sample
  = (Done tt,
     mkWorld true "0xsub" ["M"] (Some [mkPosition "A" 100])
       {[SubaccountPositions := 7]} 8 1
       [FetchPositions (mkRequest "0xsub" ["A"])]).
Proof. vm_compute. reflexivity. Qed.

Lemma validate_empty_fetch_no_mutation_witness :
  ∃ w', validate None (api_const (Resolved (Some []))) w_sample = (Done tt, w')
    ∧ unmutated 1 w_sample w'.
Proof.
  apply (validate_empty_fetch_no_mutation None _ w_sample);
    first [reflexivity | discriminate | right; reflexivity].
Defined.

Lemma validate_disconnected_skips_witness :
  validate None api_then_empty w_disconnected = (Done tt, w_disconnected)
  ∧ fetches (validate None api_then_empty w_disconnected).2
    = fetches w_disconnected
  ∧ unmutated 0 w_disconnected
      (validate None api_then_empty w_disconnected).2.
Proof.
  apply (validate_disconnected_skips None api_then_empty w_disconnected).
  left. reflexivity.
Defined.

(** C6, as stated, fails: with an empty cache [validate] does not skip; it
    sends its fetch to the indexer. *)
Lemma validate_empty_cache_still_fetches :
  subaccountPositions w_empty_cache = Some []
  ∧ validate None api_then_empty w_empty_cache ≠ (Done tt, w_empty_cache)
  ∧ fetches w_empty_cache = 0
  ∧ fetches (validate None api_then_empty w_empty_cache).2 = 1
  ∧ log (validate None api_then_empty w_empty_cache).2
    = [FetchPositions (mkRequest "0xsub" ["M"])].
Proof. repeat split; first [reflexivity | discriminate]. Qed.

Lemma validate_empty_cache_no_mutation_witness :
  ∃ o w', validate None api_then_empty w_empty_cache = (o, w')
    ∧ unmutated (if connected w_empty_cache then 1 else 0) w_empty_cache w'.
Proof.
  apply (validate_empty_cache_no_mutation None api_then_empty w_empty_cache).
  reflexivity.
Defined.

(** Cancelling a registered stream, then cancelling again. *)
Example cancelIfExists_sample :
  streamManager.cancelIfExists SubaccountPositions w_sample
  = (Done tt,
     mkWorld true "0xsub" ["M"] (Some [mkPosition "A" 100]) ∅ 8 0
       [StreamCancelled 7])
  ∧ streamManager.cancelIfExists SubaccountPositions
      (mkWorld true "0xsub" ["M"] (Some [mkPosition "A" 100]) ∅ 8 0
         [StreamCancelled 7])
    = (Done tt,
       mkWorld true "0xsub" ["M"] (Some [mkPosition "A" 100]) ∅ 8 0
         [StreamCancelled 7]).
Proof. split; vm_compute; reflexivity. Qed.

(** ** Subaccount balances *)

(** The mapping inside [fetchSubaccount] yields the transformer's pair with
    its two components exchanged. *)
Lemma fetchSubaccount_balance_pair_swapped {Token : Type}
    (peggy : string → Token) (balance : SubaccountBalance) :
  balance_pair (fetchSubaccount_balance peggy balance)
  = prod_swap (ui_pair (grpcSubaccountBalanceToUiSubaccountBalance balance)).
Proof. by destruct balance as [d [[t a]|]]. Qed.

(** X24: the two mappers agree exactly on the balances without a deposit
    and on those whose total and available balances coincide. *)
Lemma fetchSubaccount_balance_pair_agrees_iff {Token : Type}
    (peggy : string → Token) (balance : SubaccountBalance) :
  balance_pair (fetchSubaccount_balance peggy balance)
  = ui_pair (grpcSubaccountBalanceToUiSubaccountBalance balance)
  ↔ match deposit balance with
    | Some d => totalBalance d = availableBalance d
    | None => True
    end.
Proof.
  destruct balance as [d [[t a]|]]; cbn; [|done].
  unfold balance_pair, ui_pair; cbn. split; [congruence|by intros ->].
Qed.

(** C8: on a balance with total 10 and available 7 the mapping inside
    [fetchSubaccount] reports (7, 10) where the transformer reports
    (10, 7): the two do not produce the same pair. *)
Theorem fetchSubaccount_balance_differs_from_transformer :
  ∀ (Token : Type) (peggy : string → Token),
    let balance := mkSubaccountBalance "inj" (Some (mkDeposit "10" "7")) in
    balance_pair (fetchSubaccount_balance peggy balance) = ("7", "10")
    ∧ ui_pair (grpcSubaccountBalanceToUiSubaccountBalance balance)
      = ("10", "7")
    ∧ balance_pair (fetchSubaccount_balance peggy balance)
      ≠ ui_pair (grpcSubaccountBalanceToUiSubaccountBalance balance).
Proof. intros Token peggy balance. repeat split. discriminate. Qed.

(** C9: a balance without a deposit is mapped to the string 0 for both
    the total and the available balance, by the transformer and by the
    mapping inside [fetchSubaccount]. *)
Theorem absent_deposit_gives_zero_balances {Token : Type}
    (peggy : string → Token) (balance : SubaccountBalance) :
  deposit balance = None →
  uiTotalBalance (grpcSubaccountBalanceToUiSubaccountBalance balance) = "0"
  ∧ uiAvailableBalance (grpcSubaccountBalanceToUiSubaccountBalance balance)
    = "0"
  ∧ bTotalBalance (fetchSubaccount_balance peggy balance) = "0"
  ∧ bAvailableBalance (fetchSubaccount_balance peggy balance) = "0".
Proof. intros H. cbn. by rewrite H. Qed.

(** Hence every balance of the subaccount that [fetchSubaccount] returns
    reads 0 when no fetched balance has a deposit. *)
Lemma fetchSubaccount_no_deposits {Token : Type} (peggy : string → Token)
    (subaccountId : string) (fetched : list SubaccountBalance) :
  Forall (λ b, deposit b = None) fetched →
  Forall (λ b, bTotalBalance b = "0" ∧ bAvailableBalance b = "0")
    (balances (fetchSubaccount peggy subaccountId fetched)).
Proof.
  intros H. cbn. apply Forall_map. eapply Forall_impl; [exact H|].
  intros b Hb. cbn. by rewrite Hb.
Qed.

Lemma absent_deposit_gives_zero_balances_witness :
  uiTotalBalance
    (grpcSubaccountBalanceToUiSubaccountBalance balance_no_deposit) = "0"
  ∧ uiAvailableBalance
      (grpcSubaccountBalanceToUiSubaccountBalance balance_no_deposit) = "0"
  ∧ bTotalBalance (fetchSubaccount_balance String.length balance_no_deposit)
    = "0"
  ∧ bAvailableBalance
      (fetchSubaccount_balance String.length balance_no_deposit) = "0".
Proof.
  apply (absent_deposit_gives_zero_balances String.length balance_no_deposit).
  reflexivity.
Defined.

(** ** Favourite markets *)

Lemma toggle_present marketId s :
  marketId ∈ favorites s →
  favorites (toggleFavoriteMarket marketId s)
  = filter (λ m, m ≠ marketId) (favorites s).
Proof.
  intros H. unfold favorites, toggleFavoriteMarket in *. cbn.
  by rewrite bool_decide_eq_true_2.
Qed.

Lemma toggle_absent marketId s :
  marketId ∉ favorites s →
  favorites (toggleFavoriteMarket marketId s) = marketId :: favorites s.
Proof.
  intros H. unfold favorites, toggleFavoriteMarket in *. cbn.
  by rewrite bool_decide_eq_false_2.
Qed.

Lemma toggle_frame marketId s :
  same_but_favorites s (toggleFavoriteMarket marketId s).
Proof. by repeat split. Qed.

Lemma filter_absent (marketId : string) (l : list string) :
  marketId ∉ l → filter (λ m, m ≠ marketId) l = l.
Proof.
  induction l as [|x l IH]; [done|]. intros H.
  apply not_elem_of_cons in H as [Hx Hl].
  rewrite filter_cons_True by congruence. by rewrite IH.
Qed.

Lemma toggle_twice_elements marketId s m :
  m ∈ favorites (toggleFavoriteMarket marketId
                   (toggleFavoriteMarket marketId s))
  ↔ m ∈ favorites s.
Proof.
  destruct (decide (marketId ∈ favorites s)) as [Hin|Hout].
  - rewrite toggle_absent; rewrite toggle_present by done.
    + rewrite elem_of_cons, list_elem_of_filter.
      destruct (decide (m = marketId)) as [->|]; intuition congruence.
    + rewrite list_elem_of_filter. intuition congruence.
  - rewrite toggle_present; rewrite toggle_absent by done; [|left].
    rewrite filter_cons_False by (intros H; by apply H).
    by rewrite filter_absent.
Qed.

(** C10: [toggleFavoriteMarket] removes the market id from the favourites
    when it is among them and puts it in front otherwise, and leaves every
    other field of the store as it was; toggling the same id twice gives a
    favourites list with exactly the elements it had before. *)
Theorem toggleFavoriteMarket_spec (appStore : AppStoreState)
    (marketId : string) :
  (marketId ∈ favorites appStore →
     favorites (toggleFavoriteMarket marketId appStore)
     = filter (λ m, m ≠ marketId) (favorites appStore)
     ∧ (marketId ∉ favorites (toggleFavoriteMarket marketId appStore))
     ∧ ∀ m, m ≠ marketId →
         (m ∈ favorites (toggleFavoriteMarket marketId appStore)
          ↔ m ∈ favorites appStore))
  ∧ (marketId ∉ favorites appStore →
       favorites (toggleFavoriteMarket marketId appStore)
       = (marketId :: favorites appStore))
  ∧ same_but_favorites appStore (toggleFavoriteMarket marketId appStore)
  ∧ (∀ m, m ∈ favorites (toggleFavoriteMarket marketId
                            (toggleFavoriteMarket marketId appStore))
          ↔ m ∈ favorites appStore)
  ∧ list_to_set (C := gset string)
      (favorites (toggleFavoriteMarket marketId
                    (toggleFavoriteMarket marketId appStore)))
    = list_to_set (favorites appStore).
Proof.
  split; [|split; [|split; [|split]]].
  - intros Hin. rewrite toggle_present by done. split; [done|].
    split; [|intros m Hm]; rewrite list_elem_of_filter; intuition congruence.
  - apply toggle_absent.
  - apply toggle_frame.
  - apply toggle_twice_elements.
  - apply set_eq. intros m. rewrite !elem_of_list_to_set.
    apply toggle_twice_elements.
Qed.

(** Toggling twice need not give back the same list: a favourite listed
    after others comes back in front, and repeated entries come back
    once. *)
Example toggle_twice_reorders :
  let s := mkAppStoreState 0 "en" "injective-1" "1" 1 false None
             (mkUserBasedState ["a"; "x"; "b"; "x"] [] []
                (mkGeoLocation "" "" "" 0)
                (mkPreferences false false true "left" false "default"
                   false false false)) in
  favorites (toggleFavoriteMarket "x" s) = ["a"; "b"]
  ∧ favorites (toggleFavoriteMarket "x" (toggleFavoriteMarket "x" s))
    = ["x"; "a"; "b"].
Proof. split; reflexivity. Qed.

(** * Further properties *)

(** ** [verifyData] as a relation between snapshots *)





(** X2: verification survives a larger fresh snapshot and a smaller cache:
    positions that only the remote has are never reported, and dropping
    cached positions cannot turn a valid cache invalid. *)
Theorem verifyData_monotone (C C' F F' : list Position) :
  C' ⊆ C → F ⊆ F' →
  verifyData C F = true → verifyData C' F' = true.
Proof.
  rewrite !verifyData_true_iff. intros HC HF H c Hc.
  destruct (H c (HC c Hc)) as (f & Hf & K). exists f. auto.
Qed.

Lemma verifyData_monotone_witness :
  verifyData [mkPosition "A" 100]
    [mkPosition "B" 5; mkPosition "A" 100; mkPosition "C" 9] = true.
Proof.
  apply (verifyData_monotone
           [mkPosition "A" 100; mkPosition "B" 5] [mkPosition "A" 100]
           [mkPosition "A" 100; mkPosition "B" 5]
           [mkPosition "B" 5; mkPosition "A" 100; mkPosition "C" 9]).
  - apply (bool_decide_unpack _). reflexivity.
  - apply (bool_decide_unpack _). reflexivity.
  - reflexivity.
Defined.

(** X3: the verdict does not depend on the order of either snapshot. *)
Theorem verifyData_permutation (C C' F F' : list Position) :
  C ≡ₚ C' → F ≡ₚ F' → verifyData C F = verifyData C' F'.
Proof.
  intros HC HF.
  assert (E : verifyData C F = true ↔ verifyData C' F' = true).
  { rewrite !verifyData_true_iff. split; intros H c Hc.
    - rewrite <- HC in Hc. destruct (H c Hc) as (f & Hf & K).
      exists f. by rewrite <- HF.
    - rewrite HC in Hc. destruct (H c Hc) as (f & Hf & K).
      exists f. by rewrite HF. }
  destruct (verifyData C F), (verifyData C' F'); try done.
  - symmetry. by apply E.
  - by apply E.
Qed.

Lemma verifyData_permutation_witness :
  verifyData [mkPosition "A" 100; mkPosition "B" 5]
             [mkPosition "B" 5; mkPosition "A" 100]
  = verifyData [mkPosition "B" 5; mkPosition "A" 100]
               [mkPosition "A" 100; mkPosition "B" 5].
Proof.
  apply (verifyData_permutation
           [mkPosition "A" 100; mkPosition "B" 5]
           [mkPosition "B" 5; mkPosition "A" 100]
           [mkPosition "B" 5; mkPosition "A" 100]
           [mkPosition "A" 100; mkPosition "B" 5]);
    apply Permutation_swap.
Defined.

(** ** Every run of [validate] *)

(** X4: when the first fetch is rejected the rejection propagates out of
    [validate] and nothing is mutated: the cache and the registry are as
    before, no stream is cancelled or opened. *)
Theorem validate_first_fetch_rejected args api w :
  isUserConnected w = true →
  subaccountId w ≠ "" →
  api (fetches w) (request_of args w) = Rejected →
  ∃ w', validate args api w = (Threw FetchFailure, w') ∧ unmutated 1 w w'.
Proof.
  intros Hu Hs HF.
  rewrite validate_connected_eq by (by apply connected_true_iff).
  rewrite HF. eauto using unmutated_after_fetch.
Qed.

Lemma validate_first_fetch_rejected_witness :
  ∃ w', validate None (api_const Rejected) w_sample = (Threw FetchFailure, w')
    ∧ unmutated 1 w_sample w'.
Proof.
  apply (validate_first_fetch_rejected None (api_const Rejected) w_sample);
    first [reflexivity | discriminate].
Defined.

(** X5: when the cache is found stale and the second fetch is rejected,
    [validate] throws after the cancellation: the positions stream is left
    cancelled and unregistered, the stale cache stays, and no stream is
    opened. *)
Theorem validate_refetch_rejected_leaves_stream_cancelled args api w C F :
  isUserConnected w = true →
  subaccountId w ≠ "" →
  subaccountPositions w = Some C →
  api (fetches w) (request_of args w) = Resolved (Some F) →
  F ≠ [] →
  verifyData C F = false →
  api (S (fetches w)) (request_of args w) = Rejected →
  ∃ w', validate args api w = (Threw FetchFailure, w')
    ∧ subaccountPositions w' = Some C
    ∧ streams w' !! SubaccountPositions = None
    ∧ streams w' = delete SubaccountPositions (streams w)
    ∧ nextHandle w' = nextHandle w
    ∧ log w' = log w ++ [FetchPositions (request_of args w)]
                 ++ cancel_events w ++ [FetchPositions (request_of args w)].
Proof.
  intros Hu Hs HC HF Hne Hv HG.
  rewrite validate_connected_eq by (by apply connected_true_iff).
  rewrite HF, HC, Hv.
  destruct F as [|f F]; [done|]. cbn [length Nat.eqb].
  rewrite (resync_rejected args api (after_fetch args w)) by exact HG.
  eexists. split; [reflexivity|]. unfold cancel_events. cbn.
  rewrite <- !app_assoc, lookup_delete_eq. by rewrite HC.
Qed.

Lemma validate_refetch_rejected_leaves_stream_cancelled_witness :
  ∃ w', validate (Some ["A"]) api_then_rejected w_sample
        = (Threw FetchFailure, w')
    ∧ subaccountPositions w' = Some [mkPosition "A" 100]
    ∧ streams w' !! SubaccountPositions = None
    ∧ streams w' = delete SubaccountPositions (streams w_sample)
    ∧ nextHandle w' = nextHandle w_sample
    ∧ log w' = log w_sample
                 ++ [FetchPositions (request_of (Some ["A"]) w_sample)]
                 ++ cancel_events w_sample
                 ++ [FetchPositions (request_of (Some ["A"]) w_sample)].
Proof.
  apply (validate_refetch_rejected_leaves_stream_cancelled (Some ["A"])
           api_then_rejected w_sample
           [mkPosition "A" 100] [mkPosition "A" 200]);
    first [reflexivity | discriminate].
Defined.

Lemma bounded_effects_refl w : bounded_effects w w.
Proof.
  repeat split; try done; try lia.
  exists []. simpl. split; [by rewrite app_nil_r|lia].
Qed.

Lemma bounded_effects_after_fetch args w :
  bounded_effects w (after_fetch args w).
Proof.
  repeat split; try done; cbn; try lia.
  eexists. split; [reflexivity|]. simpl. lia.
Qed.

Lemma cancel_events_length w : (length (cancel_events w) ≤ 1)%nat.
Proof. unfold cancel_events. destruct (_ !! _); simpl; lia. Qed.

Lemma bounded_effects_resync args api w :
  bounded_effects w (resync args api (after_fetch args w)).2.
Proof.
  pose proof (cancel_events_length (after_fetch args w)) as Hlen.
  destruct (api (fetches (after_fetch args w))
              (request_of args (after_fetch args w))) as [G|] eqn:E.
  - rewrite (resync_resolved _ _ _ G) by done.
    unfold bounded_effects. cbn -[insert delete lookup] in *.
    repeat split; try done; try lia.
    + intros k Hk. by rewrite lookup_insert_ne.
    + eexists. rewrite <- app_assoc. split; [reflexivity|].
      cbn. rewrite length_app. cbn. lia.
  - rewrite resync_rejected by done.
    unfold bounded_effects. cbn -[insert delete lookup] in *.
    repeat split; try done; try lia.
    + intros k Hk. by rewrite lookup_delete_ne.
    + eexists. rewrite <- app_assoc. split; [reflexivity|].
      cbn. rewrite length_app. cbn. lia.
Qed.

(** X6: whatever the indexer answers and whatever the state, a run of
    [validate] leaves the wallet, account and market stores alone, touches
    no stream registration other than the positions one, sends at most two
    fetches, opens at most one stream, and only appends to the record of
    effects. *)
Theorem validate_bounded_effects args api w :
  bounded_effects w (validate args api w).2.
Proof.
  destruct (connected w) eqn:Hc;
    [|rewrite validate_guard_eq, Hc; apply bounded_effects_refl].
  rewrite validate_connected_eq by done.
  destruct (api _ _) as [[latest|]|];
    [|apply bounded_effects_after_fetch..].
  destruct (Nat.eqb _ _); [apply bounded_effects_after_fetch|].
  destruct (subaccountPositions w) as [existing|];
    [|apply bounded_effects_after_fetch].
  destruct (verifyData existing latest);
    [apply bounded_effects_after_fetch|apply bounded_effects_resync].
Qed.

(** ** [validate] against an indexer that keeps its answer *)







(** ** [cancelMarketStreams] *)

Lemma cancelMarketStreams_eq w :
  cancelMarketStreams w =
  (Done tt,
   cancelled Balances (cancelled Trades (cancelled SubaccountTrades
     (cancelled SubaccountOrders (cancelled Orderbook w))))).
Proof.
  unfold cancelMarketStreams, mbind, Run_bind.
  by rewrite !cancelIfExists_eq.
Qed.

Lemma log_cancelled kind w :
  log (cancelled kind w)
  = log w ++ option_list (StreamCancelled <$> streams w !! kind).
Proof.
  unfold cancelled. destruct (streams w !! kind); cbn; [done|].
  by rewrite app_nil_r.
Qed.

Lemma cancelled_stores kind w :
  isUserConnected (cancelled kind w) = isUserConnected w
  ∧ subaccountId (cancelled kind w) = subaccountId w
  ∧ activeMarketIds (cancelled kind w) = activeMarketIds w
  ∧ subaccountPositions (cancelled kind w) = subaccountPositions w
  ∧ nextHandle (cancelled kind w) = nextHandle w
  ∧ fetches (cancelled kind w) = fetches w.
Proof. unfold cancelled. by destruct (streams w !! kind). Qed.

(** X9: [cancelMarketStreams] cancels, in the order Orderbook,
    SubaccountOrders, SubaccountTrades, Trades, Balances, exactly the
    handles registered under these kinds, each once; afterwards none of
    the five is registered, while the positions stream's registration and
    all the stores are as before. *)
Theorem cancelMarketStreams_effect w :
  ∃ w1, cancelMarketStreams w = (Done tt, w1)
    ∧ log w1
      = log w ++ omap (λ k, StreamCancelled <$> streams w !! k)
                   market_stream_kinds
    ∧ (∀ k, k ∈ market_stream_kinds → streams w1 !! k = None)
    ∧ streams w1 !! SubaccountPositions = streams w !! SubaccountPositions
    ∧ isUserConnected w1 = isUserConnected w
    ∧ subaccountId w1 = subaccountId w
    ∧ subaccountPositions w1 = subaccountPositions w
    ∧ nextHandle w1 = nextHandle w
    ∧ fetches w1 = fetches w.
Proof.
  eexists. split; [apply cancelMarketStreams_eq|].
  split; [|split; [|split]].
  - rewrite !log_cancelled, !streams_cancelled.
    rewrite !lookup_delete_ne by done.
    unfold market_stream_kinds. cbn.
    destruct (streams w !! Orderbook), (streams w !! SubaccountOrders),
      (streams w !! SubaccountTrades), (streams w !! Trades),
      (streams w !! Balances); cbn; by rewrite <- ?app_assoc, ?app_nil_r.
  - intros k Hk. rewrite !streams_cancelled.
    unfold market_stream_kinds in Hk.
    repeat (apply elem_of_cons in Hk as [->|Hk];
            [repeat first [apply lookup_delete_eq
                          | rewrite lookup_delete_ne by done]|]).
    by apply elem_of_nil in Hk.
  - rewrite !streams_cancelled. by rewrite !lookup_delete_ne.
  - repeat match goal with
           | |- context [cancelled ?k ?x] =>
               destruct (cancelled_stores k x) as (-> & -> & _ & -> & -> & ->)
           end.
    done.
Qed.

(** ** [fetchMarkets] *)

Section SpotMarketsFacts.

Context {Market Summary UiSpotMarket : Type}.
Variable market_marketId : Market → string.
Variable summary_marketId : Summary → string.
Variable spotMarketToUiSpotMarket : Market → option Summary → UiSpotMarket.

Local Abbreviation findS := (findSummary market_marketId summary_marketId).
Local Abbreviation fetchM :=
  (fetchMarkets market_marketId summary_marketId spotMarketToUiSpotMarket).

Lemma findSummary_Some marketsSummary market s :
  findS marketsSummary market = Some s →
  s ∈ marketsSummary ∧ summary_marketId s = market_marketId market.
Proof.
  unfold findSummary. intros H.
  apply find_some in H as [Hin Heq].
  split; [by apply list_elem_of_In|by apply String.eqb_eq].
Qed.

Lemma findSummary_None marketsSummary market :
  findS marketsSummary market = None ↔
  ∀ s, s ∈ marketsSummary → summary_marketId s ≠ market_marketId market.
Proof.
  unfold findSummary. split.
  - intros H s Hs. apply list_elem_of_In in Hs.
    apply (find_none _ _ H) in Hs. by apply String.eqb_neq.
  - intros H. induction marketsSummary as [|x l IH]; [done|]. cbn.
    destruct (String.eqb _ _) eqn:E.
    + apply String.eqb_eq in E. destruct (H x); [left|done].
    + apply IH. intros s Hs. apply H. by right.
Qed.

(** X10: [fetchMarkets] keeps, in their order, exactly the markets that
    have a summary and hands each to the transformer together with the
    first summary carrying its market id; the transformer is never handed
    an undefined summary. *)
Theorem fetchMarkets_pairs_first_summary
    (markets : list Market) (marketsSummary : list Summary) :
  fetchMarkets market_marketId summary_marketId spotMarketToUiSpotMarket
      markets marketsSummary
  = omap (λ market,
            (λ s, spotMarketToUiSpotMarket market (Some s))
              <$> findSummary market_marketId summary_marketId
                    marketsSummary market)
         markets.
Proof.
  unfold fetchMarkets.
  induction markets as [|m l IH]; [done|]. cbn.
  destruct (findS marketsSummary m) as [s|] eqn:E; cbn.
  - by rewrite E, IH.
  - apply IH.
Qed.

Lemma filter_length_le {A : Type} (f : A → bool) (l : list A) :
  (length (List.filter f l) ≤ length l)%nat.
Proof.
  induction l as [|x l IH]; cbn; [lia|]. destruct (f x); cbn; lia.
Qed.

Lemma filter_length_eq_iff {A : Type} (f : A → bool) (l : list A) :
  length (List.filter f l) = length l ↔ ∀ x, x ∈ l → f x = true.
Proof.
  induction l as [|x l IH]; cbn.
  - split; [|done]. intros _ y Hy. by apply elem_of_nil in Hy.
  - pose proof (filter_length_le f l) as Hle.
    destruct (f x) eqn:E; cbn.
    + split.
      * intros H y Hy. apply elem_of_cons in Hy as [->|Hy]; [done|].
        apply IH; [lia|done].
      * intros H. f_equal. apply IH. intros y Hy. apply H. by right.
    + split; [lia|]. intros H. specialize (H x). rewrite E in H.
      discriminate H. left.
Qed.

(** X11: [fetchMarkets] never returns more markets than it was given, and
    it returns one per market exactly when every market has a summary
    with its market id; the others are dropped without an error. *)
Theorem fetchMarkets_drops_markets_without_summary
    (markets : list Market) (marketsSummary : list Summary) :
  (length (fetchMarkets market_marketId summary_marketId spotMarketToUiSpotMarket
      markets marketsSummary) ≤ length markets)%nat
  ∧ (length (fetchMarkets market_marketId summary_marketId spotMarketToUiSpotMarket
      markets marketsSummary) = length markets
     ↔ ∀ market, market ∈ markets →
         ∃ s, s ∈ marketsSummary
              ∧ summary_marketId s = market_marketId market).
Proof.
  unfold fetchMarkets. rewrite length_map. split.
  - apply filter_length_le.
  - rewrite filter_length_eq_iff. split; intros H market Hm.
    + specialize (H market Hm).
      destruct (findS marketsSummary market) as [s|] eqn:E; [|done].
      exists s. by apply findSummary_Some.
    + destruct (H market Hm) as (s & Hs & Heq).
      destruct (findS marketsSummary market) as [s'|] eqn:E; [done|].
      exfalso. by apply (proj1 (findSummary_None _ _) E s Hs).
Qed.

End SpotMarketsFacts.

(** ** [calculateExecutionPriceFromOrderbook] *)

Section ExecutionPriceFacts.

Local Open Scope Q_scope.

Context {BigNumber : Type}.
Variable toWei : Q → Z → Q.
Variable div : Q → Q → BigNumber.
Variable baseDecimals quoteDecimals : Z.

Local Abbreviation step := (fillStep toWei baseDecimals quoteDecimals).
Local Abbreviation fill := (fillOrders toWei baseDecimals quoteDecimals).
Local Abbreviation weiPrice :=
  (λ order, toWei (price order) (baseDecimals - quoteDecimals)%Z).

Lemma totalQuantity_nonneg records :
  Forall (λ o, 0 <= quantity o) records → 0 <= totalQuantity records.
Proof.
  induction 1 as [|o l Ho _ IH]; [done|].
  change (0 <= quantity o + totalQuantity l). cbn beta in Ho. lra.
Qed.

(** The reduce from any accumulator: what is filled is the smaller of what
    remained and what the records offer, and the sum grows by an amount
    priced between the bounds on the records' prices. *)
Lemma fold_fillStep_spec lo hi records : ∀ sum remain,
  0 <= remain →
  Forall (λ o, 0 <= quantity o) records →
  Forall (λ o, lo <= weiPrice o <= hi) records →
  let r := fold_left step records (sum, remain) in
  0 <= r.2
  ∧ remain - r.2 == Qmin remain (totalQuantity records)
  ∧ lo * (remain - r.2) <= r.1 - sum <= hi * (remain - r.2).
Proof.
  induction records as [|o l IH]; intros sum remain Hr Hq Hp; cbn.
  - destruct (Q.min_spec remain 0) as [[? E]|[? E]]; rewrite E; lra.
  - apply Forall_cons in Hq as [Ho Hq]. apply Forall_cons in Hp as [Hpo Hp].
    set (m := Qmin remain (quantity o)).
    assert (Hm : 0 <= m ∧ m <= remain ∧ m <= quantity o).
    { unfold m. destruct (Q.min_spec remain (quantity o)) as [[? E]|[? E]];
        rewrite E; lra. }
    destruct (IH (sum + weiPrice o * m) (remain - m)) as (H0 & Hfill & Hsum);
      [lra|done|done|].
    pose proof (totalQuantity_nonneg l Hq) as Ht.
    set (r := fold_left step l (sum + weiPrice o * m, remain - m)) in *.
    cbn in Hsum, Hfill, H0.
    split; [done|]. split.
    + unfold m in *.
      destruct (Q.min_spec remain (quantity o)) as [[? E]|[? E]];
      destruct (Q.min_spec (remain - Qmin remain (quantity o))
                  (totalQuantity l)) as [[? E1]|[? E1]];
      destruct (Q.min_spec remain (quantity o + totalQuantity l))
        as [[? E2]|[? E2]];
      rewrite ?E, ?E2 in *; lra.
    + assert (lo * m <= weiPrice o * m) by nra.
      assert (weiPrice o * m <= hi * m) by nra.
      split; nra.
Qed.

Lemma Forall_price_bounds_trivial records :
  Forall (λ o, 0 <= quantity o) records →
  ∃ lo hi, Forall (λ o, lo <= weiPrice o <= hi) records.
Proof.
  induction 1 as [|o l _ _ (lo & hi & IH)].
  - by exists 0, 0.
  - exists (Qmin lo (weiPrice o)), (Qmax hi (weiPrice o)).
    constructor.
    + split; [apply Q.le_min_r|apply Q.le_max_r].
    + eapply Forall_impl; [exact IH|]. cbn. intros x [Hl Hh]. split.
      * eapply Qle_trans; [apply Q.le_min_l|done].
      * eapply Qle_trans; [done|apply Q.le_max_l].
Qed.

(** X12: with a non-negative amount and non-negative quantities, the
    records are consumed in order until the amount is filled: what
    remains to fill is never negative, and the filled amount
    [amount - remainAmountToFill], the divisor of the final division, is
    the smaller of the amount and the total quantity on offer. *)
Theorem fillOrders_filled_amount records amount :
  0 <= amount →
  Forall (λ o, 0 <= quantity o) records →
  0 <= (fillOrders toWei baseDecimals quoteDecimals records amount).2
  ∧ (fillOrders toWei baseDecimals quoteDecimals records amount).2 <= amount
  ∧ amount - (fillOrders toWei baseDecimals quoteDecimals records amount).2
    == Qmin amount (totalQuantity records).
Proof.
  intros Ha Hq.
  destruct (Forall_price_bounds_trivial records Hq) as (lo & hi & Hp).
  destruct (fold_fillStep_spec lo hi records 0 amount Ha Hq Hp)
    as (H0 & Hfill & _).
  pose proof (totalQuantity_nonneg records Hq) as Ht.
  unfold fillOrders. split; [done|]. split; [|done].
  destruct (Q.min_spec amount (totalQuantity records)) as [[? E]|[? E]];
    rewrite E in Hfill; lra.
Qed.

(** X13: with a non-negative amount and non-negative quantities whose
    converted prices lie between [lo] and [hi], the function returns the
    quotient of a sum by the filled amount, where the filled amount is the
    smaller of the amount and the total quantity on offer, and the sum lies
    between [lo] and [hi] times the filled amount: the result is an average
    of the prices consumed. *)
Theorem calculateExecutionPrice_average lo hi records amount :
  0 <= amount →
  Forall (λ o, 0 <= quantity o) records →
  Forall (λ o, lo <= toWei (price o) (baseDecimals - quoteDecimals)%Z <= hi) records →
  ∃ sum filled,
    calculateExecutionPriceFromOrderbook toWei div baseDecimals quoteDecimals
      records amount = div sum filled
    ∧ filled == Qmin amount (totalQuantity records)
    ∧ lo * filled <= sum
    ∧ sum <= hi * filled.
Proof.
  intros Ha Hq Hp.
  destruct (fold_fillStep_spec lo hi records 0 amount Ha Hq Hp)
    as (_ & Hfill & Hsum).
  unfold calculateExecutionPriceFromOrderbook, fillOrders.
  destruct (fold_left step records (0, amount)) as [sum remain].
  exists sum, (amount - remain). cbn in *. repeat split; [done|lra..].
Qed.

(** X14: nothing is filled exactly when the amount is zero or the records
    offer nothing (in particular when there are no records); the function
    then divides a zero sum by zero. *)
Theorem calculateExecutionPrice_zero_divisor records amount :
  0 <= amount →
  Forall (λ o, 0 <= quantity o) records →
  ∃ sum filled,
    calculateExecutionPriceFromOrderbook toWei div baseDecimals quoteDecimals
      records amount = div sum filled
    ∧ (filled == 0 ↔ amount == 0 ∨ totalQuantity records == 0)
    ∧ (filled == 0 → sum == 0).
Proof.
  intros Ha Hq.
  destruct (Forall_price_bounds_trivial records Hq) as (lo & hi & Hp).
  destruct (fold_fillStep_spec lo hi records 0 amount Ha Hq Hp)
    as (_ & Hfill & Hsum).
  pose proof (totalQuantity_nonneg records Hq) as Ht.
  unfold calculateExecutionPriceFromOrderbook, fillOrders.
  destruct (fold_left step records (0, amount)) as [sum remain].
  exists sum, (amount - remain). cbn in *. split; [done|]. split.
  - destruct (Q.min_spec amount (totalQuantity records)) as [[Hlt E]|[Hle E]];
      rewrite E in Hfill; split; intros Hz; try lra; destruct Hz; lra.
  - intros H0. rewrite H0 in Hsum. lra.
Qed.

Lemma fold_fillStep_filled records : ∀ sum remain,
  remain == 0 →
  Forall (λ o, 0 <= quantity o) records →
  (fold_left step records (sum, remain)).1 == sum
  ∧ (fold_left step records (sum, remain)).2 == 0.
Proof.
  induction records as [|o l IH]; intros sum remain Hr Hq; cbn; [done|].
  apply Forall_cons in Hq as [Ho Hq].
  assert (Hm : Qmin remain (quantity o) == 0).
  { destruct (Q.min_spec remain (quantity o)) as [[? E]|[? E]];
      rewrite E; lra. }
  destruct (IH (sum + weiPrice o * Qmin remain (quantity o))
              (remain - Qmin remain (quantity o))) as [H1 H2];
    [lra|done|].
  split; [|done]. rewrite H1, Hm. lra.
Qed.

(** X15: once the records cover the amount, further records change
    neither the sum nor the filled amount: levels deeper than needed do
    not move the execution price. *)
Theorem fillOrders_ignores_deeper_levels records deeper amount :
  0 <= amount →
  amount <= totalQuantity records →
  Forall (λ o, 0 <= quantity o) records →
  Forall (λ o, 0 <= quantity o) deeper →
  (fillOrders toWei baseDecimals quoteDecimals (records ++ deeper) amount).1 == (fillOrders toWei baseDecimals quoteDecimals records amount).1
  ∧ (fillOrders toWei baseDecimals quoteDecimals (records ++ deeper) amount).2 == 0
  ∧ (fillOrders toWei baseDecimals quoteDecimals records amount).2 == 0.
Proof.
  intros Ha Hcover Hq Hd.
  destruct (Forall_price_bounds_trivial records Hq) as (lo & hi & Hp).
  destruct (fold_fillStep_spec lo hi records 0 amount Ha Hq Hp)
    as (H0 & Hfill & _).
  assert (Hr : (fill records amount).2 == 0).
  { unfold fillOrders.
    destruct (Q.min_spec amount (totalQuantity records)) as [[? E]|[? E]];
      rewrite E in Hfill; cbn in *; lra. }
  unfold fillOrders in *. rewrite fold_left_app.
  destruct (fold_left step records (0, amount)) as [sum remain].
  destruct (fold_fillStep_filled deeper sum remain Hr Hd) as [H1 H2].
  by repeat split.
Qed.

End ExecutionPriceFacts.

Lemma fillOrders_filled_amount_witness :
  (0 <= (fillOrders toWei_id 18 6 book_sample 4).2
   ∧ (fillOrders toWei_id 18 6 book_sample 4).2 <= 4
   ∧ 4 - (fillOrders toWei_id 18 6 book_sample 4).2
     == Qmin 4 (totalQuantity book_sample))%Q.
Proof.
  apply (fillOrders_filled_amount toWei_id 18 6 book_sample 4%Q).
  - discriminate.
  - repeat constructor; discriminate.
Defined.

Lemma calculateExecutionPrice_average_witness :
  ∃ sum filled,
    calculateExecutionPriceFromOrderbook toWei_id Qdiv 18 6 book_sample 4%Q
    = Qdiv sum filled
    ∧ (filled == Qmin 4 (totalQuantity book_sample)
       ∧ 2 * filled <= sum
       ∧ sum <= 3 * filled)%Q.
Proof.
  apply (calculateExecutionPrice_average toWei_id Qdiv 18 6 2%Q 3%Q
           book_sample 4%Q).
  - discriminate.
  - repeat constructor; discriminate.
  - repeat constructor; discriminate.
Defined.

(** The sample book, bought for 4: 3 at price 2 and 1 at price 3. *)
Example calculateExecutionPrice_sample :
  (calculateExecutionPriceFromOrderbook toWei_id Qdiv 18 6 book_sample 4
   == 9 / 4)%Q.
Proof. reflexivity. Qed.

Lemma calculateExecutionPrice_zero_divisor_witness :
  ∃ sum filled,
    calculateExecutionPriceFromOrderbook toWei_id Qdiv 18 6 [] 4%Q
    = Qdiv sum filled
    ∧ ((filled == 0 ↔ 4 == 0 ∨ totalQuantity [] == 0)
       ∧ (filled == 0 → sum == 0))%Q.
Proof.
  apply (calculateExecutionPrice_zero_divisor toWei_id Qdiv 18 6 [] 4%Q).
  - discriminate.
  - constructor.
Defined.

Lemma fillOrders_ignores_deeper_levels_witness :
  ((fillOrders toWei_id 18 6 (book_sample ++ [mkPriceLevel 7 1]) 4).1
   == (fillOrders toWei_id 18 6 book_sample 4).1
   ∧ (fillOrders toWei_id 18 6 (book_sample ++ [mkPriceLevel 7 1]) 4).2 == 0
   ∧ (fillOrders toWei_id 18 6 book_sample 4).2 == 0)%Q.
Proof.
  apply (fillOrders_ignores_deeper_levels toWei_id 18 6 book_sample
           [mkPriceLevel 7 1] 4%Q).
  - discriminate.
  - discriminate.
  - repeat constructor; discriminate.
  - repeat constructor; discriminate.
Defined.

(** ** The app store: hide balances and favourites *)


Lemma NoDup_filter_ne (marketId : string) (l : list string) :
  NoDup l → NoDup (filter (λ m, m ≠ marketId) l).
Proof. apply NoDup_filter. Qed.

(** X17: favourites without repetition stay without repetition under
    [toggleFavoriteMarket]. *)
Theorem toggleFavoriteMarket_NoDup (marketId : string)
    (appStore : AppStoreState) :
  NoDup (favorites appStore) →
  NoDup (favorites (toggleFavoriteMarket marketId appStore)).
Proof.
  intros H. destruct (decide (marketId ∈ favorites appStore)) as [Hin|Hout].
  - rewrite toggle_present by done. by apply NoDup_filter_ne.
  - rewrite toggle_absent by done. by constructor.
Qed.

Lemma toggleFavoriteMarket_NoDup_witness :
  NoDup (favorites (toggleFavoriteMarket "b" store_sample)).
Proof.
  apply (toggleFavoriteMarket_NoDup "b" store_sample).
  apply (bool_decide_unpack _). reflexivity.
Defined.

Lemma toggle_store_eq marketId appStore l :
  favorites (toggleFavoriteMarket marketId appStore) = l →
  toggleFavoriteMarket marketId appStore
  = patch_userState
      (mkUserBasedState l
         (bannersViewed (userState appStore))
         (modalsViewed (userState appStore))
         (geoLocation (userState appStore))
         (preferences (userState appStore)))
      appStore.
Proof. intros <-. by destruct appStore as [? ? ? ? ? ? ? []]. Qed.

Lemma toggle_twice_absent_store (marketId : string)
    (appStore : AppStoreState) :
  marketId ∉ favorites appStore →
  toggleFavoriteMarket marketId (toggleFavoriteMarket marketId appStore)
  = appStore.
Proof.
  intros Hout.
  assert (Hfav : favorites (toggleFavoriteMarket marketId
                              (toggleFavoriteMarket marketId appStore))
                 = favorites appStore).
  { rewrite toggle_present; rewrite toggle_absent by done; [|left].
    rewrite filter_cons_False by (intros H; by apply H).
    by apply filter_absent. }
  rewrite (toggle_store_eq _ _ _ Hfav).
  by destruct appStore as [? ? ? ? ? ? ? []].
Qed.

(** X18: when the market is not a favourite, toggling it twice gives back
    the very same store: the market is put in front and then removed. *)
Theorem toggleFavoriteMarket_twice_absent (marketId : string)
    (appStore : AppStoreState) :
  marketId ∉ favorites appStore →
  toggleFavoriteMarket marketId (toggleFavoriteMarket marketId appStore)
  = appStore.
Proof. apply toggle_twice_absent_store. Qed.

Lemma toggleFavoriteMarket_twice_absent_witness :
  toggleFavoriteMarket "c" (toggleFavoriteMarket "c" store_sample)
  = store_sample.
Proof.
  apply (toggleFavoriteMarket_twice_absent "c" store_sample).
  apply (bool_decide_unpack _). reflexivity.
Defined.

(** X19: a third toggle of the same market undoes the second: three
    toggles give the same store as one, whatever the favourites were
    (even with repeated entries). *)
Theorem toggleFavoriteMarket_thrice (marketId : string)
    (appStore : AppStoreState) :
  toggleFavoriteMarket marketId
    (toggleFavoriteMarket marketId (toggleFavoriteMarket marketId appStore))
  = toggleFavoriteMarket marketId appStore.
Proof.
  destruct (decide (marketId ∈ favorites appStore)) as [Hin|Hout].
  - apply toggle_twice_absent_store.
    rewrite toggle_present by done. rewrite list_elem_of_filter.
    intros [H _]. by apply H.
  - by rewrite (toggle_twice_absent_store marketId appStore).
Qed.

(** ** The wallet store *)


Section WalletFacts.

Variable getEthereumAddress : string → string.
Variable getDefaultSubaccountId : string → string.

Local Abbreviation connectAuthZ :=
  (Wallet.connectAuthZ getEthereumAddress getDefaultSubaccountId).

(** X21: [resetAuthZ] undoes [connectAuthZ]: whatever grant was
    connected, afterwards the wallet store is the one [resetAuthZ] gives
    without it, the authZ fields are empty, and the account store's
    subaccount id is the wallet's own default subaccount id again. *)
Theorem resetAuthZ_undoes_connectAuthZ (injectiveAddress : string)
    (direction : option Wallet.GrantDirection) (w : Wallet.WalletWorld) :
  let w' := Wallet.resetAuthZ (connectAuthZ injectiveAddress direction w) in
  Wallet.walletStore w' = Wallet.walletStore (Wallet.resetAuthZ w)
  ∧ Wallet.authZ (Wallet.walletStore w') = Wallet.initial_authZ
  ∧ Wallet.accountSubaccountId w'
    = Wallet.defaultSubaccountId (Wallet.walletStore w)
  ∧ Wallet.isAuthzWalletConnected (Wallet.walletStore w') = false
  ∧ Wallet.authZOrInjectiveAddress (Wallet.walletStore w')
    = Wallet.injectiveAddress (Wallet.walletStore w).
Proof.
  destruct w as [[] ? ?]. cbn. repeat split.
  unfold Wallet.isAuthzWalletConnected. cbn.
  by rewrite !andb_false_r.
Qed.


End WalletFacts.

(** The sample wallet: after [reset] the store still reports the status
    [connected] although no wallet is connected. *)
Example wallet_reset_sample :
  Wallet.isUserWalletConnected (Wallet.walletStore wallet_sample) = true
  ∧ Wallet.isUserWalletConnected
      (Wallet.walletStore (Wallet.reset wallet_sample)) = false
  ∧ Wallet.walletConnectStatus
      (Wallet.walletStore (Wallet.reset wallet_sample)) = Wallet.connected.
Proof. by repeat split. Qed.

